(** * Batched LU linear solver: orchestration layer

    A shallow embedding of [src/linearSolverLU_batched.cpp]: the driver
    [linearSolverSLU_batched] and the entry point [gpuLinearSolverBatched].
    The numerical kernels, the allocators, cuBLAS and the CUDA runtime are
    collaborators: their return codes are read from an environment, and
    every call the program issues to them is logged as an [Event]. *)

From Stdlib Require Import ZArith List Bool String Lia.
Import ListNotations.
Local Open Scope Z_scope.

(** ** Machine integers *)

(** [int] and [magma_int_t] are 32-bit signed; arithmetic wraps around. *)
Definition wrap32 (x : Z) : Z := (x + 2 ^ 31) mod 2 ^ 32 - 2 ^ 31.

Definition mul32 (a b : Z) : Z := wrap32 (a * b).

(** [#define max(a,b) (((a) > (b)) ? (a) : (b))] *)
Definition max (a b : Z) : Z := if a >? b then a else b.

(** [#define ERR_SUCCESS 0] *)
Definition ERR_SUCCESS : Z := 0.

(** Modelled from the spec: [RES_SUCCESS] comes from [utils.h], which is
    not among the sources; the status contract fixes success as [0]. *)
Definition RES_SUCCESS : Z := 0.

(** Modelled from the spec: [magma_roundup] belongs to the MAGMA headers;
    the leading dimension is "rounded up to a multiple of 32", computed
    with truncating integer division. *)
Definition magma_roundup (x y : Z) : Z :=
  mul32 (Z.quot (wrap32 (x + y - 1)) y) y.

(** ** Streams, handles and the event log *)

(** [cuda_stream[0]], [cuda_stream[1]], [cuda_stream[2]]. *)
Inductive Stream := stream0 | stream1 | stream2.

(** The local pointer variables of [gpuLinearSolverBatched] that receive
    an allocation. *)
Inductive Local :=
| h_info | d_A | d_B | dipiv | dinfo_array
| dA_array | dB_array | dipiv_array.

(** An allocation writes either through the parameter [h_X] (into the
    caller's cell [*h_X]) or into a local. *)
Inductive Target := caller_X | loc (l : Local).

(** The value held by a pointer variable. A local declared without an
    initialiser holds an indeterminate value. *)
Inductive Handle := Indeterminate | Null | Ptr (id : nat).

Inductive Kind := HostMem | DevMem | StreamRes.

(** The five [cudaStreamSynchronize] call sites, in program order. *)
Inductive SyncSite := pre_sync0 | pre_sync1 | pre_sync2 | status_sync | final_sync.

Definition sync_stream (s : SyncSite) : Stream :=
  match s with
  | pre_sync0 => stream0
  | pre_sync1 => stream1
  | pre_sync2 => stream2
  | status_sync => stream0
  | final_sync => stream1
  end.

Inductive Event :=
| EvInit
| EvStreamCreate (s : Stream) (id : nat)
| EvAlloc (t : Target) (k : Kind) (size : Z) (code : Z) (h : Handle)
| EvSetMatrixAsync (dst : Local) (rows cols : Z) (s : Stream) (code : Z)
| EvSetPointer (arr base : Local) (s : Stream)
| EvSync (s : Stream) (code : Z)
| EvCompute (s : Stream)
| EvReportError (func : string) (code : Z)
| EvFactorize (m n ldda batchCount : Z) (s : Stream)
| EvTriSolve (n nrhs ldda lddb batchCount : Z) (s : Stream)
| EvGetVectorAsync (src : Local) (s : Stream) (code : Z)
| EvGetMatrixAsync (src : Local) (rows cols : Z) (s : Stream) (code : Z)
| EvFree (l : Local) (k : Kind) (h : Handle).

(** Contents of a per-matrix status array, by index. *)
Definition StatusArray := nat -> Z.

(** ** The batched solve driver *)

(** The arguments of [linearSolverSLU_batched], in signature order. *)
Inductive SolveArg :=
| arg_n | arg_nrhs | arg_dA_array | arg_ldda | arg_dipiv_array
| arg_dB_array | arg_lddb | arg_dinfo_array | arg_batchCount | arg_queue.

Definition solve_signature : list SolveArg :=
  [arg_n; arg_nrhs; arg_dA_array; arg_ldda; arg_dipiv_array;
   arg_dB_array; arg_lddb; arg_dinfo_array; arg_batchCount; arg_queue].

Definition SolveArg_eqb (a b : SolveArg) : bool :=
  match a, b with
  | arg_n, arg_n | arg_nrhs, arg_nrhs | arg_dA_array, arg_dA_array
  | arg_ldda, arg_ldda | arg_dipiv_array, arg_dipiv_array
  | arg_dB_array, arg_dB_array | arg_lddb, arg_lddb
  | arg_dinfo_array, arg_dinfo_array | arg_batchCount, arg_batchCount
  | arg_queue, arg_queue => true
  | _, _ => false
  end.

Fixpoint index_from (k : Z) (a : SolveArg) (l : list SolveArg) : Z :=
  match l with
  | [] => 0
  | b :: l' => if SolveArg_eqb a b then k else index_from (k + 1) a l'
  end.

(** 1-based position of an argument in the signature. *)
Definition position (a : SolveArg) : Z := index_from 1 a solve_signature.

(** The [if / else if] chain that sets [info]. *)
Definition validate (n nrhs ldda lddb : Z) : Z :=
  if n <? 0 then -1
  else if nrhs <? 0 then -2
  else if ldda <? max 1 n then -4
  else if lddb <? max 1 n then -6
  else 0.

(** The argument whose test fired in that chain. *)
Definition violated (n nrhs ldda lddb : Z) : option SolveArg :=
  if n <? 0 then Some arg_n
  else if nrhs <? 0 then Some arg_nrhs
  else if ldda <? max 1 n then Some arg_ldda
  else if lddb <? max 1 n then Some arg_lddb
  else None.

Record DriverOut := mkDriverOut {
  d_ret : Z;
  d_status : StatusArray;
  d_events : list Event
}.

Section Driver.

(** The provider's two operations ([operation_batched.h]). The
    factorisation returns its aggregate code and the status array it
    leaves on the device; the triangular solve returns its code. *)
Variable linearDecompSLU_batched :
  Z -> Z -> Z -> Z -> Stream -> StatusArray -> Z * StatusArray.
Variable linearSolverFactorizedSLU_batched :
  Z -> Z -> Z -> Z -> Z -> Stream -> Z.

Definition linearSolverSLU_batched
    (n nrhs ldda lddb : Z) (dinfo : StatusArray) (batchCount : Z)
    (queue : Stream) : DriverOut :=
  let info := validate n nrhs ldda lddb in
  if negb (info =? 0) then
    mkDriverOut info dinfo
      [EvReportError "linearSolverSLU_batched" (- info)]
  else if (n =? 0) || (nrhs =? 0) then
    mkDriverOut info dinfo []
  else
    let '(info1, dinfo1) :=
      linearDecompSLU_batched n n ldda batchCount queue dinfo in
    if negb (info1 =? RES_SUCCESS) then
      mkDriverOut info1 dinfo1
        [EvFactorize n n ldda batchCount queue]
    else
      let info2 :=
        linearSolverFactorizedSLU_batched n nrhs ldda lddb batchCount queue in
      mkDriverOut info2 dinfo1
        [EvFactorize n n ldda batchCount queue;
         EvTriSolve n nrhs ldda lddb batchCount queue].

End Driver.

(** Events that touch the device or the provider. *)
Definition device_event (e : Event) : bool :=
  match e with
  | EvReportError _ _ => false
  | _ => true
  end.


Definition is_factorize (e : Event) : bool :=
  match e with
  | EvFactorize _ _ _ _ _ => true
  | _ => false
  end.

(** ** The entry point: environment, state and monad *)

(** What the collaborators answer during one call: the return code of
    each allocation, transfer and synchronisation, the provider, and the
    contents of the status buffers as the allocators hand them out. *)
Record Env := mkEnv {
  alloc_res : Target -> Z;
  setmatrix_res : Local -> Z;
  sync_res : SyncSite -> Z;
  getvector_res : Z;
  getmatrix_res : Z;
  fresh_dinfo : StatusArray;
  fresh_hinfo : StatusArray;
  factorize : Z -> Z -> Z -> Z -> Stream -> StatusArray -> Z * StatusArray;
  trisolve : Z -> Z -> Z -> Z -> Z -> Stream -> Z
}.

(** What outlives a call: the allocator's counter, the resources still
    held, and the caller's cell [*h_X]. *)
Record World := mkWorld {
  next_id : nat;
  live : list (Kind * nat);
  X_cell : Handle
}.

(** The by-value parameter [h_X]. *)
Inductive ParamPtr := to_caller_cell | param_null.

(** The locals of one activation, with the contents of the two status
    buffers ([dinfo_array] on the device, [h_info] on the host). *)
Record Frame := mkFrame {
  h_X : ParamPtr;
  handles : Local -> Handle;
  resCode : Z;
  dev_status : StatusArray;
  host_status : StatusArray
}.

(** The state a call runs in; [log] collects the events it has issued,
    oldest first. *)
Record State := mkState {
  frame : Frame;
  world : World;
  log : list Event
}.

Definition Local_index (l : Local) : nat :=
  match l with
  | h_info => 0 | d_A => 1 | d_B => 2 | dipiv => 3 | dinfo_array => 4
  | dA_array => 5 | dB_array => 6 | dipiv_array => 7
  end%nat.

Definition Local_eqb (a b : Local) : bool :=
  Nat.eqb (Local_index a) (Local_index b).

Definition Stream_eqb (a b : Stream) : bool :=
  match a, b with
  | stream0, stream0 | stream1, stream1 | stream2, stream2 => true
  | _, _ => false
  end.


Definition set_handle (l : Local) (h : Handle) (f : Frame) : Frame :=
  mkFrame (h_X f)
          (fun l' => if Local_eqb l' l then h else handles f l')
          (resCode f) (dev_status f) (host_status f).

Definition set_resCode (c : Z) (f : Frame) : Frame :=
  mkFrame (h_X f) (handles f) c (dev_status f) (host_status f).

Definition set_h_X (p : ParamPtr) (f : Frame) : Frame :=
  mkFrame p (handles f) (resCode f) (dev_status f) (host_status f).

Definition set_dev_status (d : StatusArray) (f : Frame) : Frame :=
  mkFrame (h_X f) (handles f) (resCode f) d (host_status f).

Definition set_host_status (d : StatusArray) (f : Frame) : Frame :=
  mkFrame (h_X f) (handles f) (resCode f) (dev_status f) d.

Definition with_frame (g : Frame -> Frame) (s : State) : State :=
  mkState (g (frame s)) (world s) (log s).

Definition with_log (evs : list Event) (s : State) : State :=
  mkState (frame s) (world s) (log s ++ evs).

(** Straight-line code either falls through or jumps to [cleanup]. *)
Inductive Flow (A : Type) :=
| Next (a : A)
| Goto_cleanup.
Arguments Next {A} a.
Arguments Goto_cleanup {A}.

Definition M (A : Type) : Type := State -> Flow A * State.

Definition ret {A} (a : A) : M A := fun s => (Next a, s).

Definition bind {A B} (m : M A) (k : A -> M B) : M B :=
  fun s =>
    match m s with
    | (Next a, s1) => k a s1
    | (Goto_cleanup, s1) => (Goto_cleanup, s1)
    end.

Declare Scope gpu_scope.
Delimit Scope gpu_scope with gpu.
Notation "x <- m ;; k" := (bind m (fun x => k))
  (at level 100, m at next level, right associativity) : gpu_scope.
Notation "m ;; k" := (bind m (fun _ => k))
  (at level 100, right associativity) : gpu_scope.

Definition emit (e : Event) : M unit := fun s => (Next tt, with_log [e] s).

(** [resCode = m; if (resCode != ERR_SUCCESS) {goto cleanup;}] *)
Definition checked (m : M Z) : M unit :=
  fun s =>
    match m s with
    | (Next c, s1) =>
        if negb (c =? ERR_SUCCESS)
        then (Goto_cleanup, with_frame (set_resCode c) s1)
        else (Next tt, with_frame (set_resCode c) s1)
    | (Goto_cleanup, s1) => (Goto_cleanup, s1)
    end.

(** The for loop over [h_info]: the first non-zero entry among the
    [count] entries starting at [i], if there is one. *)
Fixpoint scan_info (hs : StatusArray) (i count : nat) : option Z :=
  match count with
  | O => None
  | S c => if negb (hs i =? 0) then Some (hs i) else scan_info hs (S i) c
  end.

(** [size_t] arithmetic of [batchCount * sizeof(float* )]. *)
Definition ptr_bytes (batchCount : Z) : Z := (batchCount * 8) mod 2 ^ 64.

Definition release (id : nat) (l : list (Kind * nat)) : list (Kind * nat) :=
  filter (fun r => negb (Nat.eqb (snd r) id)) l.

(** What a call hands back: the returned code, and for inspection the
    final frame, the world and the events of the call. *)
Record CallOut := mkCallOut {
  c_ret : Z;
  c_frame : Frame;
  c_world : World;
  c_events : list Event
}.

Section EntryPoint.

Variable env : Env.

Definition magma_init : M unit := emit EvInit.

(** [cudaStreamCreate(&cuda_stream[i])]; the program ignores its return
    value. *)
Definition cudaStreamCreate (i : Stream) : M unit :=
  fun s =>
    let w := world s in
    let id := next_id w in
    (Next tt,
     mkState (frame s)
             (mkWorld (S id) ((StreamRes, id) :: live w) (X_cell w))
             (log s ++ [EvStreamCreate i id])).

(** [magma_smalloc_cpu], [magma_imalloc_cpu], [magma_smalloc],
    [magma_imalloc], [magma_malloc]. A successful allocation stores a
    fresh pointer in its target; a failed one is taken to leave a null
    pointer there, as MAGMA's host allocator does. *)
Definition magma_alloc (t : Target) (k : Kind) (size : Z) : M Z :=
  fun s =>
    let w := world s in
    let code := alloc_res env t in
    let id := next_id w in
    let h := if code =? 0 then Ptr id else Null in
    let lv := if code =? 0 then (k, id) :: live w else live w in
    let nx := if code =? 0 then S id else id in
    let evs := log s ++ [EvAlloc t k size code h] in
    match t with
    | caller_X => (Next code, mkState (frame s) (mkWorld nx lv h) evs)
    | loc l =>
        (Next code,
         mkState (set_handle l h (frame s)) (mkWorld nx lv (X_cell w)) evs)
    end.

Definition cublasSetMatrixAsync (dst : Local) (rows cols : Z) (q : Stream)
  : M Z :=
  fun s =>
    let code := setmatrix_res env dst in
    (Next code, with_log [EvSetMatrixAsync dst rows cols q code] s).

Definition set_pointer (arr base : Local) (q : Stream) : M unit :=
  emit (EvSetPointer arr base q).

Definition cudaStreamSynchronize (site : SyncSite) : M Z :=
  fun s =>
    let code := sync_res env site in
    (Next code, with_log [EvSync (sync_stream site) code] s).

(** The call of the driver on [cuda_stream[0]]; its code goes to [info],
    not to [resCode]. *)
Definition call_driver (n nrhs ldda lddb batchCount : Z) : M Z :=
  fun s =>
    let o := linearSolverSLU_batched (factorize env) (trisolve env)
               n nrhs ldda lddb (dev_status (frame s)) batchCount stream0 in
    (Next (d_ret o),
     mkState (set_dev_status (d_status o) (frame s)) (world s)
             (log s ++ EvCompute stream0 :: d_events o)).

(** Copies [batchCount] status codes from [dinfo_array] to [h_info]. *)
Definition cublasGetVectorAsync (batchCount : Z) (q : Stream) : M Z :=
  fun s =>
    let f := frame s in
    let code := getvector_res env in
    let hs := fun i : nat =>
                if (code =? 0) && (Z.of_nat i <? batchCount)
                then dev_status f i else host_status f i in
    (Next code,
     mkState (set_host_status hs f) (world s)
             (log s ++ [EvGetVectorAsync dinfo_array q code])).

(** The copy of the solutions out of [d_B]; its destination argument is
    the parameter [h_X] itself. *)
Definition cublasGetMatrixAsync (rows cols : Z) (q : Stream) : M Z :=
  fun s =>
    let code := getmatrix_res env in
    (Next code, with_log [EvGetMatrixAsync d_B rows cols q code] s).

Definition check_h_info (batchCount : Z) : M unit :=
  fun s =>
    match scan_info (host_status (frame s)) 0 (Z.to_nat batchCount) with
    | Some c => (Goto_cleanup, with_frame (set_resCode c) s)
    | None => (Next tt, s)
    end.

Definition check_info (info : Z) : M unit :=
  fun s =>
    if negb (info =? 0)
    then (Goto_cleanup, with_frame (set_resCode info) s)
    else (Next tt, s).

(** Lines 74 to 183: everything before the [cleanup] label. *)
Definition body (n batchCount : Z) : M unit :=
  (let N := n in
   let nrhs := 1 in
   let lda := N in
   let ldb := lda in
   let ldda := magma_roundup N 32 in
   let lddb := ldda in
   let sizeA := mul32 (mul32 lda N) batchCount in
   let sizeB := mul32 (mul32 ldb nrhs) batchCount in
   magma_init ;;
   cudaStreamCreate stream0 ;;
   cudaStreamCreate stream1 ;;
   cudaStreamCreate stream2 ;;
   checked (magma_alloc caller_X HostMem sizeB) ;;
   checked (magma_alloc (loc h_info) HostMem batchCount) ;;
   checked (magma_alloc (loc d_A) DevMem (mul32 (mul32 ldda N) batchCount)) ;;
   checked (magma_alloc (loc d_B) DevMem (mul32 (mul32 lddb nrhs) batchCount)) ;;
   checked (magma_alloc (loc dipiv) DevMem (mul32 N batchCount)) ;;
   checked (magma_alloc (loc dinfo_array) DevMem batchCount) ;;
   checked (magma_alloc (loc dA_array) DevMem (ptr_bytes batchCount)) ;;
   checked (magma_alloc (loc dB_array) DevMem (ptr_bytes batchCount)) ;;
   checked (magma_alloc (loc dipiv_array) DevMem (ptr_bytes batchCount)) ;;
   checked (cublasSetMatrixAsync d_A N (mul32 N batchCount) stream0) ;;
   checked (cublasSetMatrixAsync d_B N (mul32 nrhs batchCount) stream1) ;;
   set_pointer dipiv_array dipiv stream2 ;;
   set_pointer dA_array d_A stream0 ;;
   set_pointer dB_array d_B stream1 ;;
   checked (cudaStreamSynchronize pre_sync0) ;;
   checked (cudaStreamSynchronize pre_sync1) ;;
   checked (cudaStreamSynchronize pre_sync2) ;;
   info <- call_driver N nrhs ldda lddb batchCount ;;
   checked (cublasGetVectorAsync batchCount stream0) ;;
   checked (cublasGetMatrixAsync N (mul32 nrhs batchCount) stream1) ;;
   checked (cudaStreamSynchronize status_sync) ;;
   check_h_info batchCount ;;
   check_info info ;;
   checked (cudaStreamSynchronize final_sync))%gpu.

(** [magma_free_cpu] and [magma_free]: whatever the variable holds is
    handed to the allocator; a pointer it knows is released. *)
Definition magma_free (l : Local) (k : Kind) : M unit :=
  fun s =>
    let w := world s in
    let h := handles (frame s) l in
    let lv := match h with
              | Ptr id => release id (live w)
              | _ => live w
              end in
    (Next tt,
     mkState (frame s) (mkWorld (next_id w) lv (X_cell w))
             (log s ++ [EvFree l k h])).

(** [if(resCode != 0){ h_X = NULL; }]: an assignment to the parameter. *)
Definition invalidate_h_X : M unit :=
  fun s =>
    if negb (resCode (frame s) =? 0)
    then (Next tt, with_frame (set_h_X param_null) s)
    else (Next tt, s).

(** Lines 185 to 200: the [cleanup] label. *)
Definition cleanup : M unit :=
  (magma_free h_info HostMem ;;
   magma_free d_A DevMem ;;
   magma_free d_B DevMem ;;
   magma_free dipiv DevMem ;;
   magma_free dinfo_array DevMem ;;
   magma_free dA_array DevMem ;;
   magma_free dB_array DevMem ;;
   magma_free dipiv_array DevMem ;;
   invalidate_h_X)%gpu.

(** The declarations at lines 63 to 72: three pointer arrays start as
    [NULL], [resCode] as [ERR_SUCCESS], the other pointers are not
    initialised. *)
Definition initial_handles (l : Local) : Handle :=
  match l with
  | dA_array | dB_array | dipiv_array => Null
  | _ => Indeterminate
  end.

Definition initial_frame : Frame :=
  mkFrame to_caller_cell initial_handles ERR_SUCCESS
          (fresh_dinfo env) (fresh_hinfo env).

(** Control reaches [cleanup] by falling through or by [goto]; the
    function then returns [resCode]. *)
Definition finish (r : Flow unit * State) : CallOut :=
  let s2 := snd (cleanup (snd r)) in
  mkCallOut (resCode (frame s2)) (frame s2) (world s2) (log s2).

Definition gpuLinearSolverBatched (n batchCount : Z) (w : World) : CallOut :=
  finish (body n batchCount (mkState initial_frame w [])).


End EntryPoint.

(** ** Reading the event log *)

(** The stream an event enqueues work on, if it does. *)
Definition enqueues_on (e : Event) : option Stream :=
  match e with
  | EvSetMatrixAsync _ _ _ s _ => Some s
  | EvSetPointer _ _ s => Some s
  | EvFactorize _ _ _ _ s => Some s
  | EvTriSolve _ _ _ _ _ s => Some s
  | EvGetVectorAsync _ s _ => Some s
  | EvGetMatrixAsync _ _ _ s _ => Some s
  | _ => None
  end.

(** Which streams carry work that has been enqueued and not yet waited
    for: an enqueue marks its stream, a successful synchronisation clears
    it. *)
Definition step_pending (p : Stream -> bool) (e : Event) : Stream -> bool :=
  match e with
  | EvSync s code =>
      if code =? 0 then fun t => if Stream_eqb t s then false else p t else p
  | _ =>
      match enqueues_on e with
      | Some s => fun t => if Stream_eqb t s then true else p t
      | None => p
      end
  end.

Definition pending (evs : list Event) : Stream -> bool :=
  fold_left step_pending evs (fun _ => false).

(** The events issued before the compute step, when it is reached. *)
Fixpoint before_compute (evs : list Event) : option (list Event) :=
  match evs with
  | [] => None
  | EvCompute _ :: _ => Some []
  | e :: rest => option_map (cons e) (before_compute rest)
  end.

(** The stream that carried the host-to-device transfer into [buf]. *)
Fixpoint transfer_stream (evs : list Event) (buf : Local) : option Stream :=
  match evs with
  | [] => None
  | EvSetMatrixAsync dst _ _ s _ :: rest =>
      if Local_eqb dst buf then Some s else transfer_stream rest buf
  | _ :: rest => transfer_stream rest buf
  end.

(** The base buffer and the stream of the pointer-array build of [arr]. *)
Fixpoint build_stream (evs : list Event) (arr : Local)
  : option (Local * Stream) :=
  match evs with
  | [] => None
  | EvSetPointer a base s :: rest =>
      if Local_eqb a arr then Some (base, s) else build_stream rest arr
  | _ :: rest => build_stream rest arr
  end.

(** The last [k] events of a log. *)
Definition last_events (k : nat) (evs : list Event) : list Event :=
  skipn (List.length evs - k) evs.

(** The codes passed to the error-reporting collaborator. *)
Fixpoint reported (evs : list Event) : list Z :=
  match evs with
  | [] => []
  | EvReportError _ c :: rest => c :: reported rest
  | _ :: rest => reported rest
  end.

(** The targets of the allocations that were attempted, in order. *)
Fixpoint attempted (evs : list Event) : list Target :=
  match evs with
  | [] => []
  | EvAlloc t _ _ _ _ :: rest => t :: attempted rest
  | _ :: rest => attempted rest
  end.

(** The handles given to the allocator's free routines, in order. *)
Fixpoint freed (evs : list Event) : list (Local * Handle) :=
  match evs with
  | [] => []
  | EvFree l _ h :: rest => (l, h) :: freed rest
  | _ :: rest => freed rest
  end.



(** The first [batchCount] entries of a status array. *)
Definition statuses (hs : StatusArray) (batchCount : Z) : list Z :=
  map hs (seq 0 (Z.to_nat batchCount)).

(** The first non-zero element of a list of codes. *)
Definition first_nonzero (l : list Z) : option Z :=
  find (fun c => negb (c =? 0)) l.

(** The codes of the steps that come before the compute step, in program
    order: nine allocations, two transfers, three synchronisations. *)
Definition setup_codes (env : Env) : list Z :=
  [alloc_res env caller_X; alloc_res env (loc h_info);
   alloc_res env (loc d_A); alloc_res env (loc d_B);
   alloc_res env (loc dipiv); alloc_res env (loc dinfo_array);
   alloc_res env (loc dA_array); alloc_res env (loc dB_array);
   alloc_res env (loc dipiv_array);
   setmatrix_res env d_A; setmatrix_res env d_B;
   sync_res env pre_sync0; sync_res env pre_sync1; sync_res env pre_sync2].

(** The codes of the steps between the compute step and the scan of
    [h_info]. *)
Definition retrieval_codes (env : Env) : list Z :=
  [getvector_res env; getmatrix_res env; sync_res env status_sync].

(** The driver call as the entry point issues it at line 148. *)
Definition compute_step (env : Env) (n batchCount : Z) : DriverOut :=
  linearSolverSLU_batched (factorize env) (trisolve env)
    n 1 (magma_roundup n 32) (magma_roundup n 32)
    (fresh_dinfo env) batchCount stream0.

Definition or_else (a : option Z) (b : Z) : Z :=
  match a with
  | Some c => c
  | None => b
  end.

(** The value of [resCode] at the [return], read off the checks in
    program order. *)
Definition expected_code (env : Env) (n batchCount : Z) : Z :=
  or_else (first_nonzero (setup_codes env))
    (or_else (first_nonzero (retrieval_codes env))
       (or_else
          (first_nonzero
             (statuses (d_status (compute_step env n batchCount)) batchCount))
          (if d_ret (compute_step env n batchCount) =? 0
           then sync_res env final_sync
           else d_ret (compute_step env n batchCount)))).

(** What freeing a handle does to the set of held resources. *)
Definition release_handle (h : Handle) (lv : list (Kind * nat))
  : list (Kind * nat) :=
  match h with
  | Ptr id => release id lv
  | _ => lv
  end.



(** The allocations of lines 93 to 116, in program order. *)
Definition allocation_order : list Target :=
  [caller_X; loc h_info; loc d_A; loc d_B; loc dipiv; loc dinfo_array;
   loc dA_array; loc dB_array; loc dipiv_array].

(** The handles the cleanup label frees, in program order. *)
Definition cleanup_order : list Local :=
  [h_info; d_A; d_B; dipiv; dinfo_array; dA_array; dB_array; dipiv_array].

(** The targets up to and including the first whose allocation fails. *)
Fixpoint until_failure (env : Env) (ts : list Target) : list Target :=
  match ts with
  | [] => []
  | t :: rest =>
      if alloc_res env t =? 0 then t :: until_failure env rest else [t]
  end.


(** ** Sample environments *)

Definition all_zero : StatusArray := fun _ => 0.

(** A provider that factorises and solves without complaint. *)
Definition factorize_ok
  (m n ldda batchCount : Z) (s : Stream) (d : StatusArray) : Z * StatusArray :=
  (0, all_zero).

Definition trisolve_ok (n nrhs ldda lddb batchCount : Z) (s : Stream) : Z := 0.

(** Every collaborator succeeds. *)
Definition env_ok : Env :=
  mkEnv (fun _ => 0) (fun _ => 0) (fun _ => 0) 0 0
        all_zero all_zero factorize_ok trisolve_ok.

(** As [env_ok], but the last synchronisation reports error 4. *)
Definition env_final_sync_fails : Env :=
  mkEnv (fun _ => 0) (fun _ => 0)
        (fun s => match s with final_sync => 4 | _ => 0 end) 0 0
        all_zero all_zero factorize_ok trisolve_ok.

(** The factorisation finds matrix 0 singular at pivot 2 and returns an
    argument-class code. *)
Definition factorize_mixed
  (m n ldda batchCount : Z) (s : Stream) (d : StatusArray) : Z * StatusArray :=
  (-3, fun i => match i with O => 2 | _ => 0 end).

Definition env_mixed : Env :=
  mkEnv (fun _ => 0) (fun _ => 0) (fun _ => 0) 0 0
        all_zero all_zero factorize_mixed trisolve_ok.

(** The factorisation finds matrix 1 singular at pivot 2. *)
Definition factorize_singular
  (m n ldda batchCount : Z) (s : Stream) (d : StatusArray) : Z * StatusArray :=
  (0, fun i => match i with 1%nat => 2 | _ => 0 end).

Definition env_singular : Env :=
  mkEnv (fun _ => 0) (fun _ => 0) (fun _ => 0) 0 0
        all_zero all_zero factorize_singular trisolve_ok.

(** The very first allocation, the host result buffer, fails. *)
Definition env_first_alloc_fails : Env :=
  mkEnv (fun t => match t with caller_X => -112 | _ => 0 end)
        (fun _ => 0) (fun _ => 0) 0 0
        all_zero all_zero factorize_ok trisolve_ok.

Definition empty_world : World := mkWorld 0 [] Null.

(** * Properties *)

(** ** The driver *)

Lemma max_is_Zmax (a b : Z) : max a b = Z.max a b.
Proof. unfold max. destruct (Z.gtb_spec a b); lia. Qed.

Lemma validate_cases (n nrhs ldda lddb : Z) :
  (n < 0 /\ validate n nrhs ldda lddb = -1) \/
  (0 <= n /\ nrhs < 0 /\ validate n nrhs ldda lddb = -2) \/
  (0 <= n /\ 0 <= nrhs /\ ldda < max 1 n /\ validate n nrhs ldda lddb = -4) \/
  (0 <= n /\ 0 <= nrhs /\ max 1 n <= ldda /\ lddb < max 1 n /\
   validate n nrhs ldda lddb = -6) \/
  (0 <= n /\ 0 <= nrhs /\ max 1 n <= ldda /\ max 1 n <= lddb /\
   validate n nrhs ldda lddb = 0).
Proof.
  unfold validate.
  destruct (Z.ltb_spec n 0); [left; lia|].
  destruct (Z.ltb_spec nrhs 0); [right; left; lia|].
  destruct (Z.ltb_spec ldda (max 1 n)); [right; right; left; lia|].
  destruct (Z.ltb_spec lddb (max 1 n)); [right; right; right; left; lia|].
  right; right; right; right; lia.
Qed.

Ltac validate_split n nrhs ldda lddb :=
  destruct (validate_cases n nrhs ldda lddb)
    as [(? & Hv) | [(? & ? & Hv) | [(? & ? & ? & Hv) |
        [(? & ? & ? & ? & Hv) | (? & ? & ? & ? & Hv)]]]].

Section DriverProperties.

Variable decomp : Z -> Z -> Z -> Z -> Stream -> StatusArray -> Z * StatusArray.
Variable solve : Z -> Z -> Z -> Z -> Z -> Stream -> Z.

Lemma driver_rejects (n nrhs ldda lddb : Z) (dinfo : StatusArray)
      (batchCount : Z) (queue : Stream) :
  validate n nrhs ldda lddb <> 0 ->
  linearSolverSLU_batched decomp solve
           n nrhs ldda lddb dinfo batchCount queue =
  mkDriverOut (validate n nrhs ldda lddb) dinfo
    [EvReportError "linearSolverSLU_batched" (- validate n nrhs ldda lddb)].
Proof.
  intros Hne. unfold linearSolverSLU_batched.
  destruct (Z.eqb_spec (validate n nrhs ldda lddb) 0); [contradiction|].
  reflexivity.
Qed.

Lemma driver_accepts (n nrhs ldda lddb : Z) (dinfo : StatusArray)
      (batchCount : Z) (queue : Stream) :
  validate n nrhs ldda lddb = 0 ->
  linearSolverSLU_batched decomp solve
           n nrhs ldda lddb dinfo batchCount queue =
  if (n =? 0) || (nrhs =? 0) then mkDriverOut 0 dinfo []
  else
    let '(info1, dinfo1) := decomp n n ldda batchCount queue dinfo in
    if negb (info1 =? RES_SUCCESS) then
      mkDriverOut info1 dinfo1 [EvFactorize n n ldda batchCount queue]
    else
      mkDriverOut (solve n nrhs ldda lddb batchCount queue) dinfo1
        [EvFactorize n n ldda batchCount queue;
         EvTriSolve n nrhs ldda lddb batchCount queue].
Proof.
  intros Hv. unfold linearSolverSLU_batched. rewrite Hv.
  reflexivity.
Qed.

(** C2. The driver checks its parameters before anything else: [n < 0]
    gives -1; otherwise [nrhs < 0] gives -2; otherwise
    [ldda < max(1,n)] gives -4; otherwise [lddb < max(1,n)] gives -6.
    On any violation the negated code is handed to the error reporter,
    that is the only thing the driver does, the provider is not invoked
    and the status array on the device is left as it was. *)
Theorem driver_validates_before_device
    (n nrhs ldda lddb : Z) (dinfo : StatusArray) (batchCount : Z)
    (queue : Stream) :
  let o := linearSolverSLU_batched decomp solve
           n nrhs ldda lddb dinfo batchCount queue in
  (n < 0 -> d_ret o = -1) /\
  (0 <= n -> nrhs < 0 -> d_ret o = -2) /\
  (0 <= n -> 0 <= nrhs -> ldda < max 1 n -> d_ret o = -4) /\
  (0 <= n -> 0 <= nrhs -> max 1 n <= ldda -> lddb < max 1 n ->
   d_ret o = -6) /\
  (n < 0 \/ nrhs < 0 \/ ldda < max 1 n \/ lddb < max 1 n ->
   d_ret o < 0 /\
   d_events o = [EvReportError "linearSolverSLU_batched" (- d_ret o)] /\
   existsb device_event (d_events o) = false /\
   d_status o = dinfo).
Proof.
  intros o. subst o.
  validate_split n nrhs ldda lddb;
    try (rewrite driver_rejects by lia; rewrite Hv; cbn;
         repeat split; intros; try lia; reflexivity).
  repeat split; intros; lia.
Qed.


(** C3, as amended. For every [batchCount], a driver call whose
    parameters pass validation and that has [n = 0] or [nrhs = 0]
    returns 0 at once: nothing is reported, the provider is not invoked
    and the status array is left as it was. *)
Theorem driver_quick_return
    (n nrhs ldda lddb : Z) (dinfo : StatusArray) (batchCount : Z)
    (queue : Stream) :
  0 <= n -> 0 <= nrhs -> max 1 n <= ldda -> max 1 n <= lddb ->
  n = 0 \/ nrhs = 0 ->
  let o := linearSolverSLU_batched decomp solve
           n nrhs ldda lddb dinfo batchCount queue in
  d_ret o = 0 /\ d_events o = [] /\ d_status o = dinfo.
Proof.
  intros Hn Hr Ha Hb Hz o. subst o.
  validate_split n nrhs ldda lddb; try lia.
  rewrite driver_accepts by assumption.
  assert (Hq : (n =? 0) || (nrhs =? 0) = true).
  { destruct Hz as [-> | ->]; [reflexivity | apply orb_true_r]. }
  rewrite Hq. repeat split.
Qed.

(** C10, as amended. The checks run in the order [n], [nrhs], [ldda],
    [lddb] and the first violated one decides: with [n < 0] and
    [nrhs < 0] the result is -1; with [n >= 0], [nrhs < 0] and
    [lddb < max(1,n)] the result is -2. *)
Theorem driver_first_violation_wins
    (n nrhs ldda lddb : Z) (dinfo : StatusArray) (batchCount : Z)
    (queue : Stream) :
  let o := linearSolverSLU_batched decomp solve
           n nrhs ldda lddb dinfo batchCount queue in
  (n < 0 -> nrhs < 0 -> d_ret o = -1) /\
  (0 <= n -> nrhs < 0 -> lddb < max 1 n -> d_ret o = -2) /\
  (n < 0 -> d_ret o = -1) /\
  (0 <= n -> nrhs < 0 -> d_ret o = -2) /\
  (0 <= n -> 0 <= nrhs -> ldda < max 1 n -> d_ret o = -4).
Proof.
  intros o. subst o.
  validate_split n nrhs ldda lddb;
    try (rewrite driver_rejects by lia; rewrite Hv; cbn;
         repeat split; intros; lia).
  repeat split; intros; lia.
Qed.

End DriverProperties.

(** ** The entry point *)

(** *** Stepping through the body *)

Lemma step_checked {B} (m : M Z) (k : M B) (s s1 : State) (c : Z) :
  m s = (Next c, s1) ->
  bind (checked m) (fun _ => k) s =
  if c =? 0 then k (with_frame (set_resCode c) s1)
  else (Goto_cleanup, with_frame (set_resCode c) s1).
Proof.
  intros H. unfold bind, checked. rewrite H. unfold ERR_SUCCESS.
  destruct (c =? 0); reflexivity.
Qed.

Lemma step_checked_last (m : M Z) (s s1 : State) (c : Z) :
  m s = (Next c, s1) ->
  snd (checked m s) = with_frame (set_resCode c) s1.
Proof.
  intros H. unfold checked. rewrite H.
  destruct (negb (c =? ERR_SUCCESS)); reflexivity.
Qed.

Lemma step_next {A B} (m : M A) (k : A -> M B) (s s1 : State) (a : A) :
  m s = (Next a, s1) -> bind m k s = k a s1.
Proof. intros H. unfold bind. rewrite H. reflexivity. Qed.

Lemma step_check_h_info {B} (bc : Z) (k : M B) (s : State) :
  bind (check_h_info bc) (fun _ => k) s =
  match scan_info (host_status (frame s)) 0 (Z.to_nat bc) with
  | Some c => (Goto_cleanup, with_frame (set_resCode c) s)
  | None => k s
  end.
Proof.
  unfold bind, check_h_info.
  destruct (scan_info (host_status (frame s)) 0 (Z.to_nat bc)); reflexivity.
Qed.

Lemma step_check_info {B} (info : Z) (k : M B) (s : State) :
  bind (check_info info) (fun _ => k) s =
  if info =? 0 then k s else (Goto_cleanup, with_frame (set_resCode info) s).
Proof.
  unfold bind, check_info. destruct (info =? 0); reflexivity.
Qed.

(** Normalises the state the program has reached, leaving the rest of
    the program alone. *)
Ltac tidy :=
  cbv beta iota delta [with_frame with_log set_resCode set_handle
                       set_dev_status set_host_status set_h_X initial_frame];
  cbn [frame world log next_id live X_cell h_X handles resCode dev_status
       host_status app Z.eqb Pos.eqb negb andb snd fst
       d_ret d_status d_events].

Ltac step :=
  first
    [ erewrite step_checked by reflexivity
    | rewrite step_check_h_info
    | rewrite step_check_info
    | erewrite step_next by reflexivity ];
  tidy.

(** Splits on the code just obtained; [tac] closes the branch in which
    the step failed. *)
Ltac split_code_then tac :=
  match goal with
  | |- context [ if (?c =? 0) then _ else _ ] =>
      let H := fresh "Hc" in
      destruct (Z.eqb_spec c 0) as [H | H];
      [ try rewrite !H; tidy | tidy; tac H ]
  end.

Ltac on_code tac := step; split_code_then tac.

(** *** The cleanup label *)

Lemma cleanup_spec (s : State) :
  snd (cleanup s) =
  let f := frame s in
  let w := world s in
  mkState
    (if resCode f =? 0 then f else set_h_X param_null f)
    (mkWorld (next_id w)
       (release_handle (handles f dipiv_array)
       (release_handle (handles f dB_array)
       (release_handle (handles f dA_array)
       (release_handle (handles f dinfo_array)
       (release_handle (handles f dipiv)
       (release_handle (handles f d_B)
       (release_handle (handles f d_A)
       (release_handle (handles f h_info) (live w)))))))))
       (X_cell w))
    (log s ++ [EvFree h_info HostMem (handles f h_info);
               EvFree d_A DevMem (handles f d_A);
               EvFree d_B DevMem (handles f d_B);
               EvFree dipiv DevMem (handles f dipiv);
               EvFree dinfo_array DevMem (handles f dinfo_array);
               EvFree dA_array DevMem (handles f dA_array);
               EvFree dB_array DevMem (handles f dB_array);
               EvFree dipiv_array DevMem (handles f dipiv_array)]).
Proof.
  unfold cleanup. destruct s as [f w l]. tidy.
  do 8 (erewrite step_next by reflexivity; tidy).
  unfold invalidate_h_X. tidy. rewrite <- !app_assoc. cbn [app].
  destruct (resCode f =? 0); reflexivity.
Qed.

Lemma finish_ret (r : Flow unit * State) :
  c_ret (finish r) = resCode (frame (snd r)).
Proof.
  unfold finish. cbn [c_ret]. rewrite cleanup_spec. cbn [frame].
  destruct (resCode (frame (snd r)) =? 0); reflexivity.
Qed.

Lemma finish_h_X (r : Flow unit * State) :
  h_X (c_frame (finish r)) =
  if resCode (frame (snd r)) =? 0 then h_X (frame (snd r)) else param_null.
Proof.
  unfold finish. cbn [c_frame]. rewrite cleanup_spec. cbn [frame].
  destruct (resCode (frame (snd r)) =? 0); reflexivity.
Qed.


Lemma finish_events (r : Flow unit * State) :
  c_events (finish r) =
  log (snd r) ++
  map (fun l => EvFree (fst l) (snd l) (handles (frame (snd r)) (fst l)))
      [(h_info, HostMem); (d_A, DevMem); (d_B, DevMem); (dipiv, DevMem);
       (dinfo_array, DevMem); (dA_array, DevMem); (dB_array, DevMem);
       (dipiv_array, DevMem)].
Proof. unfold finish. cbn [c_events]. rewrite cleanup_spec. reflexivity. Qed.


(** *** The returned code *)

Lemma scan_info_first_nonzero (hs : StatusArray) (k : nat) : forall i,
  scan_info hs i k = first_nonzero (map hs (seq i k)).
Proof.
  induction k as [|k IH]; intros i; cbn; [reflexivity|].
  destruct (hs i =? 0); cbn; [apply IH | reflexivity].
Qed.

Lemma first_nonzero_nonzero (l : list Z) (c : Z) :
  first_nonzero l = Some c -> c <> 0.
Proof.
  unfold first_nonzero. intros H. apply find_some in H. destruct H as [_ H].
  destruct (Z.eqb_spec c 0); [discriminate | assumption].
Qed.

Lemma first_nonzero_none (l : list Z) :
  first_nonzero l = None <-> Forall (eq 0) l.
Proof.
  unfold first_nonzero. induction l as [|a l IH]; cbn.
  - split; [constructor | reflexivity].
  - destruct (Z.eqb_spec a 0) as [->|Ha]; cbn.
    + rewrite IH. split; [constructor; auto | inversion 1; auto].
    + split; [discriminate | inversion 1; congruence].
Qed.

Lemma first_nonzero_app (l1 l2 : list Z) :
  first_nonzero (l1 ++ l2) =
  match first_nonzero l1 with
  | Some c => Some c
  | None => first_nonzero l2
  end.
Proof.
  unfold first_nonzero. induction l1 as [|a l IH]; cbn; [reflexivity|].
  destruct (negb (a =? 0)); [reflexivity | apply IH].
Qed.

Lemma statuses_ext (hs dev : StatusArray) (bc : Z) :
  (forall i, Z.of_nat i < bc -> hs i = dev i) ->
  map hs (seq 0 (Z.to_nat bc)) = statuses dev bc.
Proof.
  intros H. unfold statuses. apply map_ext_in. intros i Hi.
  apply in_seq in Hi. apply H. lia.
Qed.

Ltac code_of_failed_step Hc :=
  let Hc' := fresh in
  pose proof Hc as Hc';
  rewrite finish_ret; tidy;
  unfold first_nonzero; cbn [find Z.eqb negb or_else];
  apply Z.eqb_neq in Hc'; rewrite ?Hc'; reflexivity.

(** The code a call returns, for every environment: the first failing
    setup step, else the first failing retrieval step, else the first
    non-zero entry of [h_info], else [info] if non-zero, else the code of
    the last synchronisation. It does not depend on the world. *)
Lemma return_code (env : Env) (n bc : Z) (w : World) :
  c_ret (gpuLinearSolverBatched env n bc w) = expected_code env n bc.
Proof.
  unfold gpuLinearSolverBatched, body, expected_code,
    setup_codes, retrieval_codes.
  cbv zeta. fold (compute_step env n bc).
  do 4 step.
  do 11 (on_code code_of_failed_step).
  do 3 step.
  do 3 (on_code code_of_failed_step).
  step. fold (compute_step env n bc).
  do 3 (on_code code_of_failed_step).
  step. rewrite scan_info_first_nonzero.
  rewrite (statuses_ext _ (d_status (compute_step env n bc)))
    by (intros i Hi; destruct (Z.ltb_spec (Z.of_nat i) bc);
        [reflexivity | lia]).
  change (first_nonzero [0;0;0;0;0;0;0;0;0;0;0;0;0;0]) with (@None Z).
  change (first_nonzero [0;0;0]) with (@None Z). cbn [or_else].
  destruct (first_nonzero (statuses (d_status (compute_step env n bc)) bc))
    as [c|] eqn:Hs.
  - rewrite finish_ret. reflexivity.
  - step. cbn [or_else].
    destruct (Z.eqb_spec (d_ret (compute_step env n bc)) 0) as [Hd|Hd].
    + rewrite finish_ret. erewrite step_checked_last by reflexivity. reflexivity.
    + rewrite finish_ret. reflexivity.
Qed.

(** *** The state at the cleanup label *)

(** The last statement of the body, which has no continuation. *)
Ltac last_step :=
  match goal with
  | |- context [ checked ?m ?s ] =>
      rewrite (surjective_pairing (checked m s));
      erewrite (step_checked_last m s) by reflexivity; tidy
  end.



(** *** Resources *)









(** *** The caller's cell *)



Lemma parameter_after_call (env : Env) (n bc : Z) (w : World) :
  c_ret (gpuLinearSolverBatched env n bc w) <> 0 ->
  h_X (c_frame (gpuLinearSolverBatched env n bc w)) = param_null.
Proof.
  unfold gpuLinearSolverBatched. rewrite finish_ret, finish_h_X.
  intros H. destruct (Z.eqb_spec (resCode (frame (snd
    (body env n bc (mkState (initial_frame env) w []))))) 0);
    [contradiction | reflexivity].
Qed.

(** *** Order of the events *)

Ltac never_computed :=
  rewrite finish_events; tidy;
  cbn [map app before_compute option_map fst snd];
  discriminate.

Ltac computed_after_barrier :=
  rewrite finish_events; tidy;
  cbn [map app before_compute option_map fst snd];
  let H := fresh in
  intros H; injection H as <-;
  repeat split;
  try (let s := fresh "s" in intros s; destruct s);
  reflexivity.

(** ** Claims about the entry point *)

Lemma first_nonzero_single (c : Z) :
  first_nonzero [c] = if c =? 0 then None else Some c.
Proof. unfold first_nonzero. cbn. destruct (c =? 0); reflexivity. Qed.

(** C1, as amended. When every allocation, transfer and synchronisation
    before the scan of the status mirror succeeds, the code returned by
    [gpuLinearSolverBatched] is the first non-zero value met when reading
    the per-matrix statuses in index order and then the driver's code;
    if there is none it is the code of the last synchronisation. Hence it
    is 0 exactly when all per-matrix statuses, the driver's code and the
    last synchronisation are 0, and a single non-zero per-matrix status
    (a positive singularity code in particular) makes the whole call
    fail. Position decides, not sign. *)
Theorem aggregate_is_first_nonzero_in_scan_order
    (env : Env) (n batchCount : Z) (w : World) :
  first_nonzero (setup_codes env ++ retrieval_codes env) = None ->
  let o := gpuLinearSolverBatched env n batchCount w in
  let d := compute_step env n batchCount in
  let per_matrix := statuses (d_status d) batchCount in
  c_ret o = or_else (first_nonzero (per_matrix ++ [d_ret d]))
                    (sync_res env final_sync) /\
  (c_ret o = 0 <->
   Forall (eq 0) per_matrix /\ d_ret d = 0 /\ sync_res env final_sync = 0) /\
  (forall c, In c per_matrix -> c <> 0 -> c_ret o <> 0).
Proof.
  intros Hpre o d per_matrix.
  rewrite first_nonzero_app in Hpre.
  destruct (first_nonzero (setup_codes env)) eqn:Hs; [discriminate|].
  assert (Hret : c_ret o = or_else (first_nonzero (per_matrix ++ [d_ret d]))
                                   (sync_res env final_sync)).
  { subst o. rewrite return_code. unfold expected_code.
    rewrite Hs, Hpre. cbn [or_else]. fold d. fold per_matrix.
    rewrite first_nonzero_app, first_nonzero_single.
    destruct (first_nonzero per_matrix); [reflexivity|].
    destruct (d_ret d =? 0); reflexivity. }
  split; [exact Hret|]. rewrite Hret.
  rewrite first_nonzero_app, first_nonzero_single.
  destruct (first_nonzero per_matrix) as [c|] eqn:Hp; cbn [or_else].
  - pose proof (first_nonzero_nonzero _ _ Hp) as Hc. split.
    + split; [intros H0; contradiction|].
      intros (Hall & _). apply first_nonzero_none in Hall. congruence.
    + intros; assumption.
  - apply first_nonzero_none in Hp. split.
    + destruct (Z.eqb_spec (d_ret d) 0) as [Hd|Hd]; cbn [or_else]; tauto.
    + intros c Hin Hc. rewrite Forall_forall in Hp.
      specialize (Hp c Hin). congruence.
Qed.

(** C8. Whenever the compute step is reached, no stream has work that was
    enqueued and not waited for: the three synchronisations, on streams
    0, 1 and 2, are the last three events before it. Before that, the
    pointer array of A was built on stream 0, which carried the transfer
    of A; the pointer array of B on stream 1, which carried the transfer
    of B; the pivot pointer array on stream 2. *)
Theorem compute_follows_full_barrier
    (env : Env) (n batchCount : Z) (w : World) (pre : list Event) :
  before_compute (c_events (gpuLinearSolverBatched env n batchCount w))
  = Some pre ->
  (forall s, pending pre s = false) /\
  last_events 3 pre = [EvSync stream0 0; EvSync stream1 0; EvSync stream2 0] /\
  transfer_stream pre d_A = Some stream0 /\
  build_stream pre dA_array = Some (d_A, stream0) /\
  transfer_stream pre d_B = Some stream1 /\
  build_stream pre dB_array = Some (d_B, stream1) /\
  build_stream pre dipiv_array = Some (dipiv, stream2).
Proof.
  unfold gpuLinearSolverBatched, body. cbv zeta.
  do 4 step.
  do 11 (on_code ltac:(fun _ => never_computed)).
  do 3 step.
  do 3 (on_code ltac:(fun _ => never_computed)).
  step.
  do 3 (on_code ltac:(fun _ => computed_after_barrier)).
  step.
  match goal with
  | |- context [ scan_info ?h ?i ?k ] => destruct (scan_info h i k)
  end; [computed_after_barrier|].
  on_code ltac:(fun _ => computed_after_barrier).
  last_step. computed_after_barrier.
Qed.


(** The entry point never reports success for order zero: the leading
    dimension it computes is 0, which the driver rejects. *)
Lemma entry_point_rejects_order_zero (env : Env) (batchCount : Z) (w : World) :
  c_ret (gpuLinearSolverBatched env 0 batchCount w) <> 0.
Proof.
  rewrite return_code. unfold expected_code.
  destruct (first_nonzero (setup_codes env)) eqn:H1;
    [exact (first_nonzero_nonzero _ _ H1)|].
  destruct (first_nonzero (retrieval_codes env)) eqn:H2;
    [exact (first_nonzero_nonzero _ _ H2)|].
  destruct (first_nonzero
              (statuses (d_status (compute_step env 0 batchCount)) batchCount))
    eqn:H3; [exact (first_nonzero_nonzero _ _ H3)|].
  cbn [or_else]. unfold compute_step.
  change (magma_roundup 0 32) with 0.
  rewrite driver_rejects by (cbn; lia). cbn. lia.
Qed.

(** ** Concrete runs *)

(** C1, counterexample. With every collaborator succeeding and every
    matrix factorised and solved, a failing last synchronisation makes
    the call return 4, not 0; and when the factorisation returns the
    argument-class code -3 while matrix 0 reports pivot 2, the call
    returns 2: the negative code does not dominate. *)
Lemma aggregate_counterexample :
  (statuses (d_status (compute_step env_final_sync_fails 2 2)) 2 = [0; 0] /\
   d_ret (compute_step env_final_sync_fails 2 2) = 0 /\
   c_ret (gpuLinearSolverBatched env_final_sync_fails 2 2 empty_world) = 4) /\
  (statuses (d_status (compute_step env_mixed 2 2)) 2 = [2; 0] /\
   d_ret (compute_step env_mixed 2 2) = -3 /\
   c_ret (gpuLinearSolverBatched env_mixed 2 2 empty_world) = 2).
Proof. repeat split; vm_compute; reflexivity. Qed.

Lemma aggregate_is_first_nonzero_in_scan_order_witness :
  first_nonzero (setup_codes env_singular ++ retrieval_codes env_singular)
  = None /\
  c_ret (gpuLinearSolverBatched env_singular 2 2 empty_world) <> 0.
Proof.
  split; [reflexivity|].
  refine (proj2 (proj2 (aggregate_is_first_nonzero_in_scan_order
                          env_singular 2 2 empty_world eq_refl)) 2 _ _).
  - right; left; reflexivity.
  - discriminate.
Defined.

Lemma driver_validates_before_device_witness :
  d_ret (linearSolverSLU_batched factorize_ok trisolve_ok
           (-1) 1 1 1 all_zero 1 stream0) = -1 /\
  d_ret (linearSolverSLU_batched factorize_ok trisolve_ok
           1 (-1) 1 1 all_zero 1 stream0) = -2 /\
  d_ret (linearSolverSLU_batched factorize_ok trisolve_ok
           2 1 1 2 all_zero 1 stream0) = -4 /\
  d_ret (linearSolverSLU_batched factorize_ok trisolve_ok
           2 1 2 1 all_zero 1 stream0) = -6 /\
  d_events (linearSolverSLU_batched factorize_ok trisolve_ok
              2 1 2 1 all_zero 1 stream0)
  = [EvReportError "linearSolverSLU_batched" 6].
Proof.
  split; [|split; [|split; [|split]]].
  - apply (driver_validates_before_device factorize_ok trisolve_ok
             (-1) 1 1 1 all_zero 1 stream0). lia.
  - apply (driver_validates_before_device factorize_ok trisolve_ok
             1 (-1) 1 1 all_zero 1 stream0); lia.
  - apply (driver_validates_before_device factorize_ok trisolve_ok
             2 1 1 2 all_zero 1 stream0); cbn; lia.
  - apply (driver_validates_before_device factorize_ok trisolve_ok
             2 1 2 1 all_zero 1 stream0); cbn; lia.
  - apply (driver_validates_before_device factorize_ok trisolve_ok
             2 1 2 1 all_zero 1 stream0). right; right; right. cbn; lia.
Defined.

(** C3, counterexample. With [n = 0] the driver, given the leading
    dimensions the entry point computes, returns -4; the entry point,
    with every collaborator succeeding, returns -4 after having stored a
    fresh buffer in the caller's cell. *)
Lemma quick_return_counterexample :
  magma_roundup 0 32 = 0 /\
  d_ret (linearSolverSLU_batched factorize_ok trisolve_ok
           0 1 0 0 all_zero 1 stream0) = -4 /\
  c_ret (gpuLinearSolverBatched env_ok 0 1 empty_world) = -4 /\
  X_cell empty_world = Null /\
  X_cell (c_world (gpuLinearSolverBatched env_ok 0 1 empty_world)) = Ptr 3.
Proof. repeat split; vm_compute; reflexivity. Qed.

Lemma driver_quick_return_witness :
  d_ret (linearSolverSLU_batched factorize_ok trisolve_ok
           0 1 1 1 all_zero 5 stream0) = 0 /\
  d_ret (linearSolverSLU_batched factorize_ok trisolve_ok
           2 0 2 2 all_zero 5 stream0) = 0.
Proof.
  split.
  - apply (driver_quick_return factorize_ok trisolve_ok
             0 1 1 1 all_zero 5 stream0); cbn; lia.
  - apply (driver_quick_return factorize_ok trisolve_ok
             2 0 2 2 all_zero 5 stream0); cbn; lia.
Defined.



(** C6. When the first allocation fails the remaining ones are skipped
    and control goes to the cleanup label, which hands all eight local
    handles to the allocator: the three pointer arrays are null, the
    other five were never initialised. *)
Theorem teardown_frees_uninitialised_handles :
  let o := gpuLinearSolverBatched env_first_alloc_fails 2 2 empty_world in
  c_ret o = -112 /\
  attempted (c_events o) = [caller_X] /\
  freed (c_events o) =
  [(h_info, Indeterminate); (d_A, Indeterminate); (d_B, Indeterminate);
   (dipiv, Indeterminate); (dinfo_array, Indeterminate);
   (dA_array, Null); (dB_array, Null); (dipiv_array, Null)].
Proof. repeat split; vm_compute; reflexivity. Qed.

(** C7. An invalid leading dimension of B is reported as -6, but
    [lddb] is the seventh argument of the driver; the sixth is
    [dB_array]. *)
Theorem lddb_code_is_not_its_position :
  let o := linearSolverSLU_batched factorize_ok trisolve_ok
             1 1 1 0 all_zero 1 stream0 in
  d_ret o = -6 /\
  violated 1 1 1 0 = Some arg_lddb /\
  position arg_lddb = 7 /\
  position arg_dB_array = 6 /\
  reported (d_events o) = [6].
Proof. repeat split. Qed.

Lemma compute_follows_full_barrier_witness :
  exists pre,
    before_compute (c_events (gpuLinearSolverBatched env_ok 2 2 empty_world))
    = Some pre /\
    (forall s, pending pre s = false).
Proof.
  eexists. split; [vm_compute; reflexivity|].
  apply (compute_follows_full_barrier env_ok 2 2 empty_world).
  vm_compute; reflexivity.
Defined.



(** C10, counterexample. With [nrhs < 0] and [lddb < max(1,n)] the
    result is -1, not -2, when [n] is negative as well. *)
Lemma first_violation_counterexample :
  -1 < 0 /\ 0 < max 1 (-1) /\
  d_ret (linearSolverSLU_batched factorize_ok trisolve_ok
           (-1) (-1) 1 0 all_zero 1 stream0) = -1.
Proof. repeat split. Qed.

Lemma driver_first_violation_wins_witness :
  d_ret (linearSolverSLU_batched factorize_ok trisolve_ok
           (-1) (-1) 1 1 all_zero 1 stream0) = -1 /\
  d_ret (linearSolverSLU_batched factorize_ok trisolve_ok
           2 (-1) 2 1 all_zero 1 stream0) = -2.
Proof.
  split.
  - apply (driver_first_violation_wins factorize_ok trisolve_ok
             (-1) (-1) 1 1 all_zero 1 stream0); lia.
  - apply (driver_first_violation_wins factorize_ok trisolve_ok
             2 (-1) 2 1 all_zero 1 stream0); cbn; lia.
Defined.

(** ** Further properties of the driver *)

(** The four ways a driver call can end. *)
Lemma driver_cases
    (decomp : Z -> Z -> Z -> Z -> Stream -> StatusArray -> Z * StatusArray)
    (solve : Z -> Z -> Z -> Z -> Z -> Stream -> Z)
    (n nrhs ldda lddb : Z) (dinfo : StatusArray) (batchCount : Z)
    (queue : Stream) :
  let o := linearSolverSLU_batched decomp solve
             n nrhs ldda lddb dinfo batchCount queue in
  let v := validate n nrhs ldda lddb in
  (v <> 0 /\ d_ret o = v /\
   d_events o = [EvReportError "linearSolverSLU_batched" (- v)]) \/
  (v = 0 /\ (n = 0 \/ nrhs = 0) /\ d_ret o = 0 /\ d_events o = []) \/
  (v = 0 /\ n <> 0 /\ nrhs <> 0 /\ d_ret o <> 0 /\
   d_events o = [EvFactorize n n ldda batchCount queue]) \/
  (v = 0 /\ n <> 0 /\ nrhs <> 0 /\
   d_events o = [EvFactorize n n ldda batchCount queue;
                 EvTriSolve n nrhs ldda lddb batchCount queue]).
Proof.
  intros o v. subst o v.
  destruct (Z.eq_dec (validate n nrhs ldda lddb) 0) as [Hv|Hv].
  - right. rewrite driver_accepts by assumption.
    destruct (Z.eqb_spec n 0) as [Hn|Hn]; cbn [orb].
    { left. repeat split; auto. }
    destruct (Z.eqb_spec nrhs 0) as [Hr|Hr].
    { left. repeat split; auto. }
    right. destruct (decomp n n ldda batchCount queue dinfo) as [c st].
    unfold RES_SUCCESS.
    destruct (Z.eqb_spec c 0); cbn [negb];
      [right | left]; repeat split; auto.
  - left. rewrite driver_rejects by assumption. repeat split; auto.
Qed.

(** X12. The provider is consulted only on the main path: a factorisation
    is issued exactly when the parameters are valid and [n] and [nrhs]
    are both non-zero; in every other case the whole outcome of the
    driver (code, status array, events) is the same with any provider. *)
Theorem driver_consults_provider_only_on_main_path
    (decomp decomp' : Z -> Z -> Z -> Z -> Stream -> StatusArray
                      -> Z * StatusArray)
    (solve solve' : Z -> Z -> Z -> Z -> Z -> Stream -> Z)
    (n nrhs ldda lddb : Z) (dinfo : StatusArray) (batchCount : Z)
    (queue : Stream) :
  let o := linearSolverSLU_batched decomp solve
             n nrhs ldda lddb dinfo batchCount queue in
  (existsb is_factorize (d_events o) = true <->
   validate n nrhs ldda lddb = 0 /\ n <> 0 /\ nrhs <> 0) /\
  (validate n nrhs ldda lddb <> 0 \/ n = 0 \/ nrhs = 0 ->
   linearSolverSLU_batched decomp' solve'
     n nrhs ldda lddb dinfo batchCount queue = o).
Proof.
  intros o. split.
  - destruct (driver_cases decomp solve n nrhs ldda lddb dinfo batchCount queue)
      as [(Hv & _ & He) | [(Hv & Hz & _ & He) | [(Hv & Hn & Hr & _ & He)
         | (Hv & Hn & Hr & He)]]];
      fold o in He; rewrite He; cbn; split; intros H;
      try discriminate; try reflexivity; try tauto.
  - subst o. intros H.
    destruct (Z.eq_dec (validate n nrhs ldda lddb) 0) as [Hv|Hv].
    + rewrite !driver_accepts by assumption.
      destruct H as [H | [-> | ->]]; [contradiction | reflexivity |].
      rewrite orb_true_r. reflexivity.
    + rewrite !driver_rejects by assumption. reflexivity.
Qed.

Lemma validate_zero_iff (n nrhs ldda lddb : Z) :
  validate n nrhs ldda lddb = 0 <->
  0 <= n /\ 0 <= nrhs /\ max 1 n <= ldda /\ max 1 n <= lddb.
Proof. validate_split n nrhs ldda lddb; rewrite Hv; split; intros; lia. Qed.

Lemma validate_range (n nrhs ldda lddb : Z) :
  validate n nrhs ldda lddb <> 0 ->
  In (- validate n nrhs ldda lddb) [1; 2; 4; 6].
Proof.
  validate_split n nrhs ldda lddb; rewrite Hv; intros Hne; cbn; auto.
  contradiction.
Qed.

(** X13. The error reporter is called exactly when validation fails, with
    the code 1, 2, 4 or 6; a failure of the factorisation or of the
    triangular solve is returned without being reported. *)
Theorem driver_reports_only_invalid_parameters
    (decomp : Z -> Z -> Z -> Z -> Stream -> StatusArray -> Z * StatusArray)
    (solve : Z -> Z -> Z -> Z -> Z -> Stream -> Z)
    (n nrhs ldda lddb : Z) (dinfo : StatusArray) (batchCount : Z)
    (queue : Stream) :
  let o := linearSolverSLU_batched decomp solve
             n nrhs ldda lddb dinfo batchCount queue in
  (reported (d_events o) = [] <->
   0 <= n /\ 0 <= nrhs /\ max 1 n <= ldda /\ max 1 n <= lddb) /\
  (forall k, In k (reported (d_events o)) ->
             d_ret o = - k /\ In k [1; 2; 4; 6]).
Proof.
  intros o. rewrite <- validate_zero_iff.
  destruct (driver_cases decomp solve n nrhs ldda lddb dinfo batchCount queue)
    as [(Hv & Hr & He) | [(Hv & _ & _ & He) | [(Hv & _ & _ & _ & He)
       | (Hv & _ & _ & He)]]];
    fold o in He; try fold o in Hr; rewrite He; cbn [reported].
  - split; [split; [discriminate | contradiction]|].
    intros k [<- | []]. split; [lia | apply validate_range; assumption].
  - split; [tauto | intros k []].
  - split; [tauto | intros k []].
  - split; [tauto | intros k []].
Qed.

(** ** Further properties of the entry point *)

(** *** The returned code on every path *)

Lemma first_nonzero_pair (a b : Z) :
  or_else (first_nonzero [a; b]) 0 = if a =? 0 then b else a.
Proof.
  unfold first_nonzero. cbn.
  destruct (Z.eqb_spec a 0); cbn; [|reflexivity].
  destruct (Z.eqb_spec b 0); cbn; congruence.
Qed.

(** X1. On every path the returned code is the first non-zero value in
    this fixed order: the nine allocations, the two transfers, the three
    synchronisations before the compute step, the two retrievals, the
    synchronisation of stream 0, the per-matrix statuses by index, the
    driver's code, the last synchronisation. It is 0 only if all of them
    are 0, so a partial success is never reported as success. *)
Theorem return_code_is_first_failure
    (env : Env) (n batchCount : Z) (w : World) :
  let o := gpuLinearSolverBatched env n batchCount w in
  let d := compute_step env n batchCount in
  let codes := setup_codes env ++ retrieval_codes env ++
               statuses (d_status d) batchCount ++
               [d_ret d; sync_res env final_sync] in
  c_ret o = or_else (first_nonzero codes) 0 /\
  (c_ret o = 0 <-> Forall (eq 0) codes).
Proof.
  intros o d codes.
  assert (H : c_ret o = or_else (first_nonzero codes) 0).
  { subst o codes. rewrite return_code. unfold expected_code. fold d.
    rewrite !first_nonzero_app.
    destruct (first_nonzero (setup_codes env)); [reflexivity|].
    destruct (first_nonzero (retrieval_codes env)); [reflexivity|].
    destruct (first_nonzero (statuses (d_status d) batchCount));
      [reflexivity|].
    cbn [or_else]. symmetry. apply first_nonzero_pair. }
  split; [exact H|]. rewrite H.
  destruct (first_nonzero codes) as [c|] eqn:Hc; cbn [or_else].
  - pose proof (first_nonzero_nonzero _ _ Hc) as Hne. split.
    + intros; contradiction.
    + intros Hall. apply first_nonzero_none in Hall. congruence.
  - apply first_nonzero_none in Hc. tauto.
Qed.

(** X7. The entry point can only report success for an order of at least
    one: for [n <= 0] the driver call it issues fails validation ([n < 0]
    gives -1; [n = 0] gives -4 because the leading dimension it computes
    is 0), so the returned code is never 0. *)
Theorem success_needs_positive_order
    (env : Env) (n batchCount : Z) (w : World) :
  c_ret (gpuLinearSolverBatched env n batchCount w) = 0 -> 1 <= n.
Proof.
  rewrite return_code. unfold expected_code. intros H.
  destruct (first_nonzero (setup_codes env)) eqn:H1;
    [apply first_nonzero_nonzero in H1; contradiction|].
  destruct (first_nonzero (retrieval_codes env)) eqn:H2;
    [apply first_nonzero_nonzero in H2; contradiction|].
  destruct (first_nonzero
              (statuses (d_status (compute_step env n batchCount)) batchCount))
    eqn:H3; [apply first_nonzero_nonzero in H3; contradiction|].
  cbn [or_else] in H.
  destruct (Z.eqb_spec (d_ret (compute_step env n batchCount)) 0)
    as [Hd|Hd]; [|contradiction].
  destruct (Z.le_gt_cases 1 n) as [|Hn]; [assumption|]. exfalso.
  unfold compute_step in Hd.
  assert (Hv : validate n 1 (magma_roundup n 32) (magma_roundup n 32) <> 0).
  { unfold validate. destruct (Z.ltb_spec n 0); [discriminate|].
    assert (n = 0) as -> by lia. cbn. discriminate. }
  rewrite driver_rejects in Hd by assumption. cbn [d_ret] in Hd. congruence.
Qed.

Lemma wrap32_small (x : Z) : - 2 ^ 31 <= x < 2 ^ 31 -> wrap32 x = x.
Proof. intros H. unfold wrap32. rewrite Z.mod_small; lia. Qed.

(** X8. For an order between 1 and 2^31 - 32 the padded leading dimension
    computed at line 79 is a multiple of 32, at least [n] and less than
    [n + 32]; the driver call of line 148 then passes validation, reports
    nothing and issues the factorisation. *)
Theorem padded_leading_dimension_is_valid
    (env : Env) (n batchCount : Z) :
  1 <= n <= 2 ^ 31 - 32 ->
  let ldda := magma_roundup n 32 in
  n <= ldda < n + 32 /\
  ldda mod 32 = 0 /\
  validate n 1 ldda ldda = 0 /\
  reported (d_events (compute_step env n batchCount)) = [] /\
  existsb is_factorize (d_events (compute_step env n batchCount)) = true.
Proof.
  intros Hn ldda.
  assert (Hl : ldda = 32 * ((n + 31) / 32)).
  { subst ldda. unfold magma_roundup, mul32.
    replace (n + 32 - 1) with (n + 31) by lia.
    rewrite (wrap32_small (n + 31)) by lia.
    rewrite Z.quot_div_nonneg by lia.
    pose proof (Z.mul_div_le (n + 31) 32 ltac:(lia)).
    pose proof (Z.div_pos (n + 31) 32 ltac:(lia) ltac:(lia)).
    rewrite wrap32_small by lia. lia. }
  pose proof (Z.mul_div_le (n + 31) 32 ltac:(lia)) as Hle.
  pose proof (Z.mul_succ_div_gt (n + 31) 32 ltac:(lia)) as Hgt.
  assert (Hr : n <= ldda < n + 32) by lia.
  assert (Hm : ldda mod 32 = 0).
  { rewrite Hl, Z.mul_comm. apply Z.mod_mul. lia. }
  assert (Hv : validate n 1 ldda ldda = 0).
  { apply validate_zero_iff. rewrite max_is_Zmax. lia. }
  unfold compute_step. fold ldda.
  destruct (driver_cases (factorize env) (trisolve env) n 1 ldda ldda
              (fresh_dinfo env) batchCount stream0)
    as [(Hne & _) | [(_ & Hz & _) | [(_ & _ & _ & _ & He)
       | (_ & _ & _ & He)]]];
    [contradiction | lia | |]; rewrite He; repeat split; assumption || lia.
Qed.


(** *** Walking every path of the body *)

Ltac split_driver env n bc :=
  fold (compute_step env n bc);
  let He := fresh "He" in
  let Hv := fresh "Hv" in
  destruct (driver_cases (factorize env) (trisolve env) n 1
              (magma_roundup n 32) (magma_roundup n 32)
              (fresh_dinfo env) bc stream0)
    as [(Hv & _ & He) | [(Hv & _ & _ & He) | [(Hv & _ & _ & _ & He)
       | (Hv & _ & _ & He)]]];
  fold (compute_step env n bc) in He; rewrite He; tidy.

(** Runs [tac] at the cleanup label of every path, with the log made of
    explicit events. *)
Ltac on_every_path env n bc tac :=
  unfold gpuLinearSolverBatched, body; cbv zeta;
  do 4 step;
  do 11 (on_code ltac:(fun _ => tac));
  do 3 step;
  do 3 (on_code ltac:(fun _ => tac));
  step; split_driver env n bc;
  (do 3 (on_code ltac:(fun _ => tac));
   step;
   match goal with
   | |- context [ scan_info ?h ?i ?k ] => destruct (scan_info h i k)
   end; [tac|];
   on_code ltac:(fun _ => tac);
   last_step; tac).

Ltac read_log :=
  rewrite finish_events; tidy; cbn [map app fst snd].

Ltac refute_setup H :=
  exfalso; revert H; unfold first_nonzero;
  cbn [find Z.eqb negb];
  repeat match goal with
         | Hc : ?c <> 0 |- context [ ?c =? 0 ] =>
             let E := fresh in
             destruct (Z.eqb_spec c 0) as [E|E]; [contradiction|];
             cbn [negb]
         end;
  discriminate.

Ltac reached_or_not :=
  read_log; cbn [before_compute option_map];
  first [ reflexivity
        | let H := fresh in intros H; refute_setup H ].

Lemma compute_reached (env : Env) (n bc : Z) (w : World) :
  match before_compute (c_events (gpuLinearSolverBatched env n bc w)) with
  | Some _ => first_nonzero (setup_codes env) = None
  | None => first_nonzero (setup_codes env) <> None
  end.
Proof.
  unfold setup_codes.
  on_every_path env n bc reached_or_not.
Qed.

(** X9. An empty batch is not short-cut: with [batchCount <= 0] the
    pipeline still runs up to the driver call, no per-matrix status is
    read, and once setup and retrieval have succeeded the returned code
    is the driver's code or, when that is 0, the code of the last
    synchronisation. *)
Theorem empty_batch_reads_no_status
    (env : Env) (n batchCount : Z) (w : World) :
  batchCount <= 0 ->
  first_nonzero (setup_codes env ++ retrieval_codes env) = None ->
  let o := gpuLinearSolverBatched env n batchCount w in
  let d := compute_step env n batchCount in
  c_ret o = (if d_ret d =? 0 then sync_res env final_sync else d_ret d) /\
  (exists pre, before_compute (c_events o) = Some pre).
Proof.
  intros Hb Hs o d. rewrite first_nonzero_app in Hs.
  destruct (first_nonzero (setup_codes env)) eqn:H1; [discriminate|]. split.
  - subst o. rewrite return_code. unfold expected_code.
    rewrite H1, Hs. unfold statuses.
    replace (Z.to_nat batchCount) with 0%nat by lia. reflexivity.
  - pose proof (compute_reached env n batchCount w) as H. fold o in H.
    destruct (before_compute (c_events o)) as [pre|];
      [now exists pre | contradiction].
Qed.

Ltac zero_or_not :=
  repeat match goal with
         | Hc : ?c <> 0 |- context [ ?c =? 0 ] =>
             let E := fresh in
             destruct (Z.eqb_spec c 0) as [E|E]; [contradiction|]
         end.

(** X3. Allocation stops at the first failure: on every path the
    allocations attempted are those of lines 93 to 116 in order, up to
    and including the first one that fails, and none after it. *)
Theorem allocation_stops_at_first_failure
    (env : Env) (n batchCount : Z) (w : World) :
  attempted (c_events (gpuLinearSolverBatched env n batchCount w)) =
  until_failure env allocation_order.
Proof.
  unfold allocation_order. cbn [until_failure].
  on_every_path env n batchCount
    ltac:(read_log; cbn [attempted until_failure Z.eqb]; zero_or_not;
          reflexivity).
Qed.

(** X4. The cleanup label is passed exactly once on every path, last:
    whatever happened before, the log ends with the eight frees of lines
    187 to 196, in that order, and contains no other free. *)
Theorem cleanup_runs_once_at_the_end
    (env : Env) (n batchCount : Z) (w : World) :
  let o := gpuLinearSolverBatched env n batchCount w in
  map fst (freed (c_events o)) = cleanup_order /\
  map fst (freed (last_events 8 (c_events o))) = cleanup_order.
Proof.
  unfold cleanup_order. cbv zeta.
  on_every_path env n batchCount ltac:(read_log; split; reflexivity).
Qed.

(** X2. The compute step is reached exactly when all fourteen setup steps
    succeed; when one fails, its code is returned and the driver is never
    called. *)
Theorem compute_needs_every_setup_step
    (env : Env) (n batchCount : Z) (w : World) :
  let o := gpuLinearSolverBatched env n batchCount w in
  (first_nonzero (setup_codes env) = None <->
   exists pre, before_compute (c_events o) = Some pre) /\
  (forall c, first_nonzero (setup_codes env) = Some c ->
             c_ret o = c /\ before_compute (c_events o) = None).
Proof.
  intros o. pose proof (compute_reached env n batchCount w) as H.
  fold o in H. split.
  - destruct (before_compute (c_events o)) as [pre|].
    + split; [intros _; now exists pre | intros _; exact H].
    + split; [intros E; contradiction | intros [pre E]; discriminate].
  - intros c Hc. split.
    + subst o. rewrite return_code. unfold expected_code. rewrite Hc.
      reflexivity.
    + destruct (before_compute (c_events o)); [congruence | reflexivity].
Qed.

(** *** The output pointer *)



(** *** Streams at the return *)

Lemma scan_info_nonzero (hs : StatusArray) (i k : nat) (c : Z) :
  scan_info hs i k = Some c -> c <> 0.
Proof.
  rewrite scan_info_first_nonzero. apply first_nonzero_nonzero.
Qed.

Ltac failed_so_not_zero :=
  rewrite finish_ret; tidy;
  let H := fresh in
  intros H; exfalso;
  first [ congruence
        | match goal with
          | Hs : scan_info _ _ _ = Some ?c |- _ =>
              apply (scan_info_nonzero _ _ _ _ Hs); assumption
          end ].

Ltac quiescent_or_failed :=
  first
    [ failed_so_not_zero
    | rewrite finish_ret; tidy;
      let H := fresh in
      let s := fresh "s" in
      intros H s; read_log; rewrite ?H; destruct s; reflexivity ].

(** X10. A call that returns 0 leaves no stream with work that was
    enqueued and not waited for: the status copy on stream 0 and the
    solution copy on stream 1 have both been synchronised, and stream 2
    has been idle since the barrier. *)
Theorem success_leaves_streams_idle
    (env : Env) (n batchCount : Z) (w : World) :
  c_ret (gpuLinearSolverBatched env n batchCount w) = 0 ->
  forall s, pending (c_events (gpuLinearSolverBatched env n batchCount w)) s
            = false.
Proof.
  unfold gpuLinearSolverBatched, body; cbv zeta.
  do 4 step.
  do 11 (on_code ltac:(fun _ => quiescent_or_failed)).
  do 3 step.
  do 3 (on_code ltac:(fun _ => quiescent_or_failed)).
  step. split_driver env n batchCount;
  (do 3 (on_code ltac:(fun _ => quiescent_or_failed));
   step;
   match goal with
   | |- context [ scan_info ?h ?i ?k ] => destruct (scan_info h i k) eqn:Hs
   end; [quiescent_or_failed|];
   on_code ltac:(fun _ => quiescent_or_failed);
   last_step; quiescent_or_failed).
Qed.

Ltac step_succeeded Hall Hc :=
  exfalso; apply Hc; symmetry;
  apply (proj1 (Forall_forall _ _) Hall);
  unfold setup_codes, retrieval_codes; cbn [app In]; tauto.

Ltac copy_left_pending :=
  rewrite finish_ret; tidy;
  let H := fresh in
  intros H; read_log; unfold pending;
  cbn [fold_left step_pending enqueues_on Z.eqb];
  try (apply Z.eqb_neq in H; rewrite H);
  split; reflexivity.

(** X11. When the call fails after the solution copy has been enqueued (a
    non-zero per-matrix status, a non-zero driver code, or a failing last
    synchronisation), it reaches the cleanup label without a successful
    synchronisation of stream 1: the copy out of [d_B] has not been
    waited for when [d_B] is freed. Stream 0 has been waited for. *)
Theorem failure_leaves_solution_copy_pending
    (env : Env) (n batchCount : Z) (w : World) :
  first_nonzero (setup_codes env ++ retrieval_codes env) = None ->
  c_ret (gpuLinearSolverBatched env n batchCount w) <> 0 ->
  pending (c_events (gpuLinearSolverBatched env n batchCount w)) stream1
  = true /\
  pending (c_events (gpuLinearSolverBatched env n batchCount w)) stream0
  = false.
Proof.
  intros Hall. apply first_nonzero_none in Hall.
  unfold gpuLinearSolverBatched, body; cbv zeta.
  do 4 step.
  do 11 (on_code ltac:(fun Hc => step_succeeded Hall Hc)).
  do 3 step.
  do 3 (on_code ltac:(fun Hc => step_succeeded Hall Hc)).
  step. split_driver env n batchCount;
  (do 3 (on_code ltac:(fun Hc => step_succeeded Hall Hc));
   step;
   match goal with
   | |- context [ scan_info ?h ?i ?k ] => destruct (scan_info h i k) eqn:Hs
   end; [copy_left_pending|];
   on_code ltac:(fun _ => copy_left_pending);
   last_step; copy_left_pending).
Qed.

(** *** Allocations and frees *)




(** ** Instances of the further properties *)

Lemma success_needs_positive_order_witness :
  c_ret (gpuLinearSolverBatched env_ok 2 2 empty_world) = 0 /\ 1 <= 2.
Proof.
  assert (H : c_ret (gpuLinearSolverBatched env_ok 2 2 empty_world) = 0)
    by (vm_compute; reflexivity).
  split; [exact H|].
  exact (success_needs_positive_order env_ok 2 2 empty_world H).
Defined.

Lemma padded_leading_dimension_is_valid_witness :
  1 <= 33 <= 2 ^ 31 - 32 /\ 33 <= magma_roundup 33 32 < 33 + 32.
Proof.
  assert (H : 1 <= 33 <= 2 ^ 31 - 32) by lia.
  split; [exact H|].
  exact (proj1 (padded_leading_dimension_is_valid env_ok 33 1 H)).
Defined.

Lemma empty_batch_reads_no_status_witness :
  0 <= 0 /\
  c_ret (gpuLinearSolverBatched env_ok 2 0 empty_world) =
  (if d_ret (compute_step env_ok 2 0) =? 0
   then sync_res env_ok final_sync else d_ret (compute_step env_ok 2 0)).
Proof.
  split; [lia|].
  exact (proj1 (empty_batch_reads_no_status env_ok 2 0 empty_world
                  ltac:(lia) eq_refl)).
Defined.

Lemma success_leaves_streams_idle_witness :
  c_ret (gpuLinearSolverBatched env_ok 2 2 empty_world) = 0 /\
  pending (c_events (gpuLinearSolverBatched env_ok 2 2 empty_world)) stream1
  = false.
Proof.
  assert (H : c_ret (gpuLinearSolverBatched env_ok 2 2 empty_world) = 0)
    by (vm_compute; reflexivity).
  split; [exact H|].
  exact (success_leaves_streams_idle env_ok 2 2 empty_world H stream1).
Defined.

Lemma failure_leaves_solution_copy_pending_witness :
  c_ret (gpuLinearSolverBatched env_singular 2 2 empty_world) <> 0 /\
  pending (c_events (gpuLinearSolverBatched env_singular 2 2 empty_world))
    stream1 = true.
Proof.
  assert (H : c_ret (gpuLinearSolverBatched env_singular 2 2 empty_world) <> 0)
    by (vm_compute; discriminate).
  split; [exact H|].
  exact (proj1 (failure_leaves_solution_copy_pending
                  env_singular 2 2 empty_world eq_refl H)).
Defined.

